(** * error-classifier-lib: the classification engine

    A shallow embedding of [src/error-classifier.ts] and of the part of
    [src/types.ts] it reads, followed by the properties of [classify].

    A string is the sequence of the bytes of its UTF-8 encoding; the
    fragments the classifier looks for are ASCII, so a fragment occurs in a
    text exactly when its bytes do.

    [String.prototype.toLowerCase] is a built-in of the language, not code of
    the repository. The functions that call it are defined once for an
    arbitrary lower-casing function ([extractErrorCodeBy],
    [determineErrorCodeFromMessageBy], [classifyBy]); [toLowerCase] below is
    the built-in on ASCII text, where it is the fold of 'A'..'Z', and
    [extractErrorCode], [determineErrorCodeFromMessage] and [classify] are the
    functions at [toLowerCase]. *)

From Stdlib Require Import Bool List Ascii String Arith.
Import ListNotations.

Open Scope string_scope.
Open Scope bool_scope.

(** ** The string primitives the classifier calls *)

Module JsString.

(** One character of [String.prototype.toLowerCase] on ASCII text: 'A'..'Z'
    (65..90) move to 'a'..'z'. Bytes from 128 on, which are parts of other
    characters, are left alone: there this function is not the built-in. *)
Definition toLowerCaseChar (c : ascii) : ascii :=
  let n := nat_of_ascii c in
  if (65 <=? n)%nat && (n <=? 90)%nat then ascii_of_nat (n + 32) else c.

Fixpoint toLowerCase (s : string) : string :=
  match s with
  | EmptyString => EmptyString
  | String c s' => String (toLowerCaseChar c) (toLowerCase s')
  end.

(** [startsWith s w]: [w] occurs in [s] at position 0. *)
Fixpoint startsWith (s w : string) {struct w} : bool :=
  match w, s with
  | EmptyString, _ => true
  | String _ _, EmptyString => false
  | String a w', String b s' => Ascii.eqb a b && startsWith s' w'
  end.

(** [includes s w] is [s.includes(w)]: [w] occurs in [s] at some position. *)
Fixpoint includes (s w : string) : bool :=
  startsWith s w ||
  match s with
  | EmptyString => false
  | String _ s' => includes s' w
  end.

End JsString.

Import JsString.

(** ** types.ts *)

(** [enum ErrorCode]: a string enum, every member initialised with its own
    name. *)
Inductive ErrorCode : Set :=
  (* Network errors *)
  | TIMEOUT
  | CONNECTION_ERROR
  | DNS_ERROR
  (* Authentication errors *)
  | AUTHENTICATION_ERROR
  | INVALID_API_KEY
  | PERMISSION_DENIED
  (* Rate limiting *)
  | RATE_LIMIT
  | QUOTA_EXCEEDED
  (* Model errors *)
  | MODEL_NOT_FOUND
  | MODEL_OVERLOADED
  | CONTEXT_LENGTH_EXCEEDED
  (* Response errors *)
  | INVALID_RESPONSE
  | PARSE_ERROR
  | EMPTY_RESPONSE
  (* Quality errors *)
  | QUALITY_THRESHOLD_NOT_MET
  | LATENCY_TOO_HIGH
  (* System errors *)
  | INTERNAL_ERROR
  | SERVICE_UNAVAILABLE
  | UNKNOWN_ERROR
  (* Custom errors *)
  | CUSTOM_ERROR.

(** The value a member has at run time: the string of its initialiser. *)
Definition ErrorCode_value (c : ErrorCode) : string :=
  match c with
  | TIMEOUT => "TIMEOUT"
  | CONNECTION_ERROR => "CONNECTION_ERROR"
  | DNS_ERROR => "DNS_ERROR"
  | AUTHENTICATION_ERROR => "AUTHENTICATION_ERROR"
  | INVALID_API_KEY => "INVALID_API_KEY"
  | PERMISSION_DENIED => "PERMISSION_DENIED"
  | RATE_LIMIT => "RATE_LIMIT"
  | QUOTA_EXCEEDED => "QUOTA_EXCEEDED"
  | MODEL_NOT_FOUND => "MODEL_NOT_FOUND"
  | MODEL_OVERLOADED => "MODEL_OVERLOADED"
  | CONTEXT_LENGTH_EXCEEDED => "CONTEXT_LENGTH_EXCEEDED"
  | INVALID_RESPONSE => "INVALID_RESPONSE"
  | PARSE_ERROR => "PARSE_ERROR"
  | EMPTY_RESPONSE => "EMPTY_RESPONSE"
  | QUALITY_THRESHOLD_NOT_MET => "QUALITY_THRESHOLD_NOT_MET"
  | LATENCY_TOO_HIGH => "LATENCY_TOO_HIGH"
  | INTERNAL_ERROR => "INTERNAL_ERROR"
  | SERVICE_UNAVAILABLE => "SERVICE_UNAVAILABLE"
  | UNKNOWN_ERROR => "UNKNOWN_ERROR"
  | CUSTOM_ERROR => "CUSTOM_ERROR"
  end.

Definition allErrorCodes : list ErrorCode :=
  [ TIMEOUT; CONNECTION_ERROR; DNS_ERROR;
    AUTHENTICATION_ERROR; INVALID_API_KEY; PERMISSION_DENIED;
    RATE_LIMIT; QUOTA_EXCEEDED;
    MODEL_NOT_FOUND; MODEL_OVERLOADED; CONTEXT_LENGTH_EXCEEDED;
    INVALID_RESPONSE; PARSE_ERROR; EMPTY_RESPONSE;
    QUALITY_THRESHOLD_NOT_MET; LATENCY_TOO_HIGH;
    INTERNAL_ERROR; SERVICE_UNAVAILABLE; UNKNOWN_ERROR;
    CUSTOM_ERROR ].

(** Strict equality of two codes, which compares their strings. *)
Definition ErrorCode_eqb (a b : ErrorCode) : bool :=
  String.eqb (ErrorCode_value a) (ErrorCode_value b).

(** [type ErrorClassification] *)
Inductive ErrorClassification : Set :=
  | timeout
  | rate_limit
  | authentication
  | model
  | quality
  | network
  | system
  | unknown.

(** [interface ClassifiedError] *)
Record ClassifiedError : Set := mkClassifiedError {
  code : ErrorCode;
  classification : ErrorClassification;
  retryable : bool;
  shouldFallback : bool;
  message : string
}.

(** [interface RetryConfig], the two optional fields the classifier reads.
    The delay, back-off, circuit-breaker and quality-gate fields are never
    consulted by it. *)
Record RetryConfig : Set := mkRetryConfig {
  fallbackOnErrors : option (list ErrorCode);
  retryableErrors : option (list string)
}.

(** ** error-classifier.ts *)

(** One row of [ERROR_CLASSIFICATIONS]. *)
Record TaxonomyEntry : Set := mkEntry {
  entry_classification : ErrorClassification;
  entry_retryable : bool;
  entry_shouldFallback : bool
}.

Definition Taxonomy : Set := list (ErrorCode * TaxonomyEntry).

(** [ErrorClassifier.ERROR_CLASSIFICATIONS], in the order of the source. *)
Definition ERROR_CLASSIFICATIONS : Taxonomy :=
  [ (TIMEOUT, mkEntry timeout true true);
    (CONNECTION_ERROR, mkEntry network true true);
    (DNS_ERROR, mkEntry network true true);
    (AUTHENTICATION_ERROR, mkEntry authentication false false);
    (INVALID_API_KEY, mkEntry authentication false true);
    (PERMISSION_DENIED, mkEntry authentication false false);
    (RATE_LIMIT, mkEntry rate_limit true true);
    (QUOTA_EXCEEDED, mkEntry rate_limit false true);
    (MODEL_NOT_FOUND, mkEntry model false true);
    (MODEL_OVERLOADED, mkEntry model true true);
    (CONTEXT_LENGTH_EXCEEDED, mkEntry model false true);
    (INVALID_RESPONSE, mkEntry quality true true);
    (PARSE_ERROR, mkEntry quality true true);
    (EMPTY_RESPONSE, mkEntry quality true true);
    (QUALITY_THRESHOLD_NOT_MET, mkEntry quality false true);
    (LATENCY_TOO_HIGH, mkEntry quality false true);
    (INTERNAL_ERROR, mkEntry system true false);
    (SERVICE_UNAVAILABLE, mkEntry system true true);
    (UNKNOWN_ERROR, mkEntry unknown false false);
    (CUSTOM_ERROR, mkEntry unknown false false) ].

(** Property access [table[errorCode]]: [None] stands for [undefined]. *)
Fixpoint lookup (table : Taxonomy) (c : ErrorCode) : option TaxonomyEntry :=
  match table with
  | [] => None
  | (k, e) :: rest => if ErrorCode_eqb k c then Some e else lookup rest c
  end.

(** The object literal on the right of [||] in [classify]. *)
Definition defaultEntry : TaxonomyEntry := mkEntry unknown false false.

(** [extractErrorCode(error)], on the [name] and [message] of the Error;
    [lower] is [toLowerCase()]. *)
Definition extractErrorCodeBy (lower : string -> string)
    (error_name error_message : string) : ErrorCode :=
  let message := lower error_message in
  let name := lower error_name in
  (* Check for timeout *)
  if includes message "timeout" || includes name "timeout" then TIMEOUT
  (* Check for rate limit *)
  else if includes message "rate limit" || includes message "rate_limit" ||
          includes message "too many requests" then RATE_LIMIT
  (* Check for authentication *)
  else if includes message "authentication" || includes message "unauthorized" ||
          includes message "invalid api key" || includes message "api key"
       then INVALID_API_KEY
  (* Check for quota *)
  else if includes message "quota" || includes message "exceeded" ||
          includes message "insufficient credits" then QUOTA_EXCEEDED
  (* Check for model overloaded *)
  else if includes message "overloaded" || includes message "model overloaded"
       then MODEL_OVERLOADED
  (* Check for context length *)
  else if includes message "context length" || includes message "max tokens" ||
          includes message "token limit" then CONTEXT_LENGTH_EXCEEDED
  (* Check for connection errors *)
  else if includes message "connection" || includes message "network" ||
          includes message "ECONNREFUSED" || includes message "ENOTFOUND"
       then CONNECTION_ERROR
  (* Check for service unavailable *)
  else if includes message "503" || includes message "service unavailable" ||
          includes message "unavailable" then SERVICE_UNAVAILABLE
  (* Check for empty response *)
  else if includes message "empty" || includes message "no response"
       then EMPTY_RESPONSE
  (* Check for invalid response *)
  else if includes message "invalid response" || includes message "parse"
       then INVALID_RESPONSE
  (* Check for permission denied *)
  else if includes message "permission" || includes message "forbidden" ||
          includes message "403" then PERMISSION_DENIED
  (* Check for model not found *)
  else if includes message "model not found" || includes message "404"
       then MODEL_NOT_FOUND
  (* Default to unknown error *)
  else UNKNOWN_ERROR.

(** [determineErrorCodeFromMessage(message)]; [lower] is [toLowerCase()]. *)
Definition determineErrorCodeFromMessageBy (lower : string -> string)
    (message : string) : ErrorCode :=
  let lowerMessage := lower message in
  if includes lowerMessage "timeout" then TIMEOUT
  else if includes lowerMessage "rate limit" then RATE_LIMIT
  else if includes lowerMessage "authentication" || includes lowerMessage "api key"
       then INVALID_API_KEY
  else if includes lowerMessage "quota" then QUOTA_EXCEEDED
  else if includes lowerMessage "overloaded" then MODEL_OVERLOADED
  else if includes lowerMessage "context length" then CONTEXT_LENGTH_EXCEEDED
  else if includes lowerMessage "connection" then CONNECTION_ERROR
  else if includes lowerMessage "unavailable" then SERVICE_UNAVAILABLE
  else if includes lowerMessage "empty" then EMPTY_RESPONSE
  else if includes lowerMessage "invalid response" then INVALID_RESPONSE
  else if includes lowerMessage "permission" then PERMISSION_DENIED
  else if includes lowerMessage "model not found" then MODEL_NOT_FOUND
  else CUSTOM_ERROR.

(** The two functions on ASCII text. *)
Definition extractErrorCode (error_name error_message : string) : ErrorCode :=
  extractErrorCodeBy toLowerCase error_name error_message.

Definition determineErrorCodeFromMessage (message : string) : ErrorCode :=
  determineErrorCodeFromMessageBy toLowerCase message.

(** The three shapes of the first parameter of [classify], typed
    [Error | ErrorCode | string]: an instance of [Error], a member of the
    enum, a string. (An object that only has the fields of an [Error] is
    [PlainObject] of the section on exceptions below.) *)
Inductive ErrorInput : Set :=
  | InError (name message : string)
  | InCode (c : ErrorCode)
  | InString (s : string).

(** What the two run-time tests of [classify] tell apart. The last case is
    the one its final [else] is written for: a code that is neither an Error
    nor a string. *)
Inductive RuntimeValue : Set :=
  | ErrorObject (name message : string)   (* error instanceof Error *)
  | PrimitiveString (s : string)          (* typeof error === 'string' *)
  | OtherCode (c : ErrorCode).            (* neither *)

(** A member of the string enum is, at run time, the primitive string of its
    initialiser. *)
Definition runtime (error : ErrorInput) : RuntimeValue :=
  match error with
  | InError n m => ErrorObject n m
  | InCode c => PrimitiveString (ErrorCode_value c)
  | InString s => PrimitiveString s
  end.

(** [customMessage || error]: an absent or empty [customMessage] is falsy. *)
Definition orElse (customMessage : option string) (error : string) : string :=
  match customMessage with
  | Some (String a rest) => String a rest
  | Some EmptyString | None => error
  end.

(** [config.fallbackOnErrors?.includes(errorCode) ?? false] *)
Definition fallbackOverride (config : RetryConfig) (errorCode : ErrorCode) : bool :=
  match fallbackOnErrors config with
  | Some l => existsb (fun k => ErrorCode_eqb k errorCode) l
  | None => false
  end.

(** [config.retryableErrors?.includes(errorCode) ?? false] *)
Definition retryOverride (config : RetryConfig) (errorCode : ErrorCode) : bool :=
  match retryableErrors config with
  | Some l => existsb (fun k => String.eqb k (ErrorCode_value errorCode)) l
  | None => false
  end.

Section Classifier.

(** The taxonomy the classifier consults; the class fixes it to
    [ERROR_CLASSIFICATIONS], see [classify] below. *)
Variable table : Taxonomy.

(** [table[errorCode] || { classification: 'unknown', retryable: false,
    shouldFallback: false }]: an entry is an object, hence truthy. *)
Definition baseEntry (errorCode : ErrorCode) : TaxonomyEntry :=
  match lookup table errorCode with
  | Some e => e
  | None => defaultEntry
  end.

(** The body of [classify], on the run-time value of its argument; [lower]
    is [toLowerCase()]. *)
Definition classifyValueBy (lower : string -> string) (config : RetryConfig)
    (error : RuntimeValue) (customMessage : option string) : ClassifiedError :=
  (* Handle different input types *)
  let '(errorCode, errorMessage) :=
    match error with
    | ErrorObject n m => (extractErrorCodeBy lower n m, m)
    | PrimitiveString s => (determineErrorCodeFromMessageBy lower s, s)
    | OtherCode c => (c, orElse customMessage (ErrorCode_value c))
    end in
  (* Get base classification *)
  let base := baseEntry errorCode in
  (* Check custom fallback errors from config *)
  let shouldFallback := entry_shouldFallback base || fallbackOverride config errorCode in
  (* Check custom retryable errors from config *)
  let retryable := entry_retryable base || retryOverride config errorCode in
  {| code := errorCode;
     classification := entry_classification base;
     retryable := retryable;
     shouldFallback := shouldFallback;
     message := errorMessage |}.

Definition classifyValue (config : RetryConfig) (error : RuntimeValue)
    (customMessage : option string) : ClassifiedError :=
  classifyValueBy toLowerCase config error customMessage.

Definition classifyWith (config : RetryConfig) (error : ErrorInput)
    (customMessage : option string) : ClassifiedError :=
  classifyValue config (runtime error) customMessage.

End Classifier.

(** [ErrorClassifier.classify] *)
Definition classify : RetryConfig -> ErrorInput -> option string -> ClassifiedError :=
  classifyWith ERROR_CLASSIFICATIONS.

(** [ErrorClassifier.classify] for an arbitrary [toLowerCase()]; [classify] is
    [classifyBy toLowerCase]. *)
Definition classifyBy (lower : string -> string) (config : RetryConfig)
    (error : ErrorInput) (customMessage : option string) : ClassifiedError :=
  classifyValueBy ERROR_CLASSIFICATIONS lower config (runtime error) customMessage.

(** [isRetryable(error)] and [shouldFallback(error)]; the second is renamed,
    [shouldFallback] being the field of [ClassifiedError]. *)
Definition isRetryable (config : RetryConfig) (error : ErrorInput) : bool :=
  retryable (classify config error None).

Definition shouldFallbackFor (config : RetryConfig) (error : ErrorInput) : bool :=
  shouldFallback (classify config error None).

(** A configuration with no override at all, and one with two empty lists. *)
Definition noOverrides : RetryConfig := mkRetryConfig None None.
Definition emptyOverrides : RetryConfig := mkRetryConfig (Some []) (Some []).

(** The fragments [determineErrorCodeFromMessage] looks for, in its order. *)
Definition stringFragments : list string :=
  [ "timeout"; "rate limit"; "authentication"; "api key"; "quota";
    "overloaded"; "context length"; "connection"; "unavailable"; "empty";
    "invalid response"; "permission"; "model not found" ].

(** The fragments [extractErrorCode] looks for in the message, in its order. *)
Definition errorFragments : list string :=
  [ "timeout"; "rate limit"; "rate_limit"; "too many requests";
    "authentication"; "unauthorized"; "invalid api key"; "api key";
    "quota"; "exceeded"; "insufficient credits";
    "overloaded"; "model overloaded";
    "context length"; "max tokens"; "token limit";
    "connection"; "network"; "ECONNREFUSED"; "ENOTFOUND";
    "503"; "service unavailable"; "unavailable";
    "empty"; "no response";
    "invalid response"; "parse";
    "permission"; "forbidden"; "403";
    "model not found"; "404" ].

(** No fragment of the list occurs in the lower-cased message. *)
Definition matchesNoneBy (lower : string -> string) (fragments : list string)
    (msg : string) : bool :=
  forallb (fun f => negb (includes (lower msg) f)) fragments.

Definition matchesNone (fragments : list string) (msg : string) : bool :=
  matchesNoneBy toLowerCase fragments msg.

(** The codes that come back unchanged when handed to [classify]. *)
Definition selfDescribing (c : ErrorCode) : bool :=
  ErrorCode_eqb (determineErrorCodeFromMessage (ErrorCode_value c)) c.

(** ** The default configuration *)

(** [DEFAULT_RETRY_CONFIG] of types.ts, the two fields the classifier reads:
    six fallback codes, and no [retryableErrors]. *)
Definition DEFAULT_RETRY_CONFIG : RetryConfig :=
  mkRetryConfig
    (Some [ TIMEOUT; RATE_LIMIT; MODEL_OVERLOADED; INVALID_RESPONSE;
            SERVICE_UNAVAILABLE; CONNECTION_ERROR ])
    None.

(** ** Vocabulary for the properties *)

(** The members of an optional list; an absent list has none. *)
Definition members {A : Type} (o : option (list A)) : list A :=
  match o with
  | Some l => l
  | None => []
  end.

(** The codes [determineErrorCodeFromMessage] can return, in its order. *)
Definition stringCodes : list ErrorCode :=
  [ TIMEOUT; RATE_LIMIT; INVALID_API_KEY; QUOTA_EXCEEDED; MODEL_OVERLOADED;
    CONTEXT_LENGTH_EXCEEDED; CONNECTION_ERROR; SERVICE_UNAVAILABLE;
    EMPTY_RESPONSE; INVALID_RESPONSE; PERMISSION_DENIED; MODEL_NOT_FOUND;
    CUSTOM_ERROR ].

(** The codes [extractErrorCode] can return, in its order. *)
Definition errorCodes : list ErrorCode :=
  [ TIMEOUT; RATE_LIMIT; INVALID_API_KEY; QUOTA_EXCEEDED; MODEL_OVERLOADED;
    CONTEXT_LENGTH_EXCEEDED; CONNECTION_ERROR; SERVICE_UNAVAILABLE;
    EMPTY_RESPONSE; INVALID_RESPONSE; PERMISSION_DENIED; MODEL_NOT_FOUND;
    UNKNOWN_ERROR ].

(** The codes a result of [classify] can carry. *)
Definition derivableCodes : list ErrorCode :=
  [ TIMEOUT; RATE_LIMIT; INVALID_API_KEY; QUOTA_EXCEEDED; MODEL_OVERLOADED;
    CONTEXT_LENGTH_EXCEEDED; CONNECTION_ERROR; SERVICE_UNAVAILABLE;
    EMPTY_RESPONSE; INVALID_RESPONSE; PERMISSION_DENIED; MODEL_NOT_FOUND;
    UNKNOWN_ERROR; CUSTOM_ERROR ].

(** A message that makes the string cascade return the given code. *)
Definition sampleMessage (c : ErrorCode) : string :=
  match c with
  | TIMEOUT => "timeout"
  | RATE_LIMIT => "rate limit"
  | INVALID_API_KEY => "api key"
  | QUOTA_EXCEEDED => "quota"
  | MODEL_OVERLOADED => "overloaded"
  | CONTEXT_LENGTH_EXCEEDED => "context length"
  | CONNECTION_ERROR => "connection"
  | SERVICE_UNAVAILABLE => "unavailable"
  | EMPTY_RESPONSE => "empty"
  | INVALID_RESPONSE => "invalid response"
  | PERMISSION_DENIED => "permission"
  | MODEL_NOT_FOUND => "model not found"
  | _ => "?"
  end.

(** A cascade written as data: each rule is the fragments of one [if] and the
    code it returns. *)
Definition Rule : Set := (list string * ErrorCode)%type.

(** The first rule one of whose fragments occurs in [lower], else [default]. *)
Fixpoint firstMatch (rules : list Rule) (default : ErrorCode) (lower : string)
    : ErrorCode :=
  match rules with
  | [] => default
  | (fragments, c) :: rest =>
      if existsb (includes lower) fragments then c
      else firstMatch rest default lower
  end.

(** The [if]s of [determineErrorCodeFromMessage]. *)
Definition stringRules : list Rule :=
  [ (["timeout"], TIMEOUT);
    (["rate limit"], RATE_LIMIT);
    (["authentication"; "api key"], INVALID_API_KEY);
    (["quota"], QUOTA_EXCEEDED);
    (["overloaded"], MODEL_OVERLOADED);
    (["context length"], CONTEXT_LENGTH_EXCEEDED);
    (["connection"], CONNECTION_ERROR);
    (["unavailable"], SERVICE_UNAVAILABLE);
    (["empty"], EMPTY_RESPONSE);
    (["invalid response"], INVALID_RESPONSE);
    (["permission"], PERMISSION_DENIED);
    (["model not found"], MODEL_NOT_FOUND) ].

(** The [if]s of [extractErrorCode], as far as they test the message. *)
Definition errorRules : list Rule :=
  [ (["timeout"], TIMEOUT);
    (["rate limit"; "rate_limit"; "too many requests"], RATE_LIMIT);
    (["authentication"; "unauthorized"; "invalid api key"; "api key"], INVALID_API_KEY);
    (["quota"; "exceeded"; "insufficient credits"], QUOTA_EXCEEDED);
    (["overloaded"; "model overloaded"], MODEL_OVERLOADED);
    (["context length"; "max tokens"; "token limit"], CONTEXT_LENGTH_EXCEEDED);
    (["connection"; "network"; "ECONNREFUSED"; "ENOTFOUND"], CONNECTION_ERROR);
    (["503"; "service unavailable"; "unavailable"], SERVICE_UNAVAILABLE);
    (["empty"; "no response"], EMPTY_RESPONSE);
    (["invalid response"; "parse"], INVALID_RESPONSE);
    (["permission"; "forbidden"; "403"], PERMISSION_DENIED);
    (["model not found"; "404"], MODEL_NOT_FOUND) ].

(** [errorRules] without the five fragments that decide nothing: the two in
    upper case, and the three that contain another fragment of their rule. *)
Definition effectiveErrorRules : list Rule :=
  [ (["timeout"], TIMEOUT);
    (["rate limit"; "rate_limit"; "too many requests"], RATE_LIMIT);
    (["authentication"; "unauthorized"; "api key"], INVALID_API_KEY);
    (["quota"; "exceeded"; "insufficient credits"], QUOTA_EXCEEDED);
    (["overloaded"], MODEL_OVERLOADED);
    (["context length"; "max tokens"; "token limit"], CONTEXT_LENGTH_EXCEEDED);
    (["connection"; "network"], CONNECTION_ERROR);
    (["503"; "unavailable"], SERVICE_UNAVAILABLE);
    (["empty"; "no response"], EMPTY_RESPONSE);
    (["invalid response"; "parse"], INVALID_RESPONSE);
    (["permission"; "forbidden"; "403"], PERMISSION_DENIED);
    (["model not found"; "404"], MODEL_NOT_FOUND) ].

(** Some fragment of the rule occurs in the lower-cased message. *)
Definition ruleFiresBy (lower : string -> string) (r : Rule) (msg : string) : bool :=
  existsb (includes (lower msg)) (fst r).

(** The text has no letter 'A'..'Z'. *)
Fixpoint hasCapital (s : string) : bool :=
  match s with
  | EmptyString => false
  | String c s' =>
      let n := nat_of_ascii c in
      ((65 <=? n)%nat && (n <=? 90)%nat) || hasCapital s'
  end.

(** The text is ASCII: every byte is below 128. *)
Fixpoint isAscii (s : string) : bool :=
  match s with
  | EmptyString => true
  | String c s' => (nat_of_ascii c <? 128)%nat && isAscii s'
  end.

(** ** Exceptions and values outside the enum

    The definitions above give [classify] on the values its parameter type
    names, and cannot throw. What follows is the same body on the run-time
    values a caller can pass, with the places where the body can throw: a
    [toLowerCase()] call on a property that is not a string, and the read of
    a list from a configuration that is [undefined]. *)

(** What a call does: it returns a value, or throws. *)
Inductive Outcome (A : Type) : Type :=
  | Returns (a : A)
  | Throws.

Arguments Returns {A} a.
Arguments Throws {A}.

Definition bind {A B : Type} (o : Outcome A) (k : A -> Outcome B) : Outcome B :=
  match o with
  | Returns a => k a
  | Throws => Throws
  end.

Notation "x <- o ;; k" := (bind o (fun x => k))
  (at level 61, o at next level, right associativity).

(** A property the type declares a string: the string or, where the type is
    violated, [undefined]. *)
Inductive Property : Set :=
  | PString (s : string)
  | PUndefined.

(** The first argument of [classify] at run time. An object that is no
    instance of [Error], such as the literal [{name, message}], has the type
    [Error] all the same; its string form is the default "[object Object]". *)
Inductive Argument : Set :=
  | ErrorInstance (name message : Property)   (* error instanceof Error *)
  | StringArgument (s : string)               (* typeof error === 'string' *)
  | PlainObject (name message : Property).    (* neither *)


(** What the [code] and [message] of a result can hold: a string, or the
    argument object itself. *)
Inductive FieldValue : Set :=
  | FString (s : string)
  | FObject.

Record RawClassified : Set := mkRawClassified {
  raw_code : FieldValue;
  raw_classification : ErrorClassification;
  raw_retryable : bool;
  raw_shouldFallback : bool;
  raw_message : FieldValue
}.

(** The key under which [table[errorCode]] looks. *)
Definition propertyKey (v : FieldValue) : string :=
  match v with
  | FString s => s
  | FObject => "[object Object]"
  end.

(** [table[key]] for a key that is the name of a code or "[object Object]",
    the two kinds [classify] asks for. *)
Fixpoint lookupKey (table : Taxonomy) (key : string) : option TaxonomyEntry :=
  match table with
  | [] => None
  | (k, e) :: rest =>
      if String.eqb (ErrorCode_value k) key then Some e else lookupKey rest key
  end.

(** [list.includes(errorCode)] on a list of strings: an object is equal to no
    string. *)
Definition includesValue (l : list string) (v : FieldValue) : bool :=
  match v with
  | FString s => existsb (fun k => String.eqb k s) l
  | FObject => false
  end.

(** [ErrorClassifier.classify] on run-time values; [None] is a configuration
    that is [undefined]. *)
Definition classifyRaw (lower : string -> string) (table : Taxonomy)
    (config : option RetryConfig) (error : Argument)
    (customMessage : option string) : Outcome RawClassified :=
  (* Handle different input types *)
  derived <-
    match error with
    | ErrorInstance name message =>
        (* error.message.toLowerCase(), error.name.toLowerCase() *)
        match message, name with
        | PString m, PString n =>
            Returns (FString (ErrorCode_value (extractErrorCodeBy lower n m)),
                     FString m)
        | _, _ => Throws
        end
    | StringArgument s =>
        Returns (FString (ErrorCode_value (determineErrorCodeFromMessageBy lower s)),
                 FString s)
    | PlainObject _ _ =>
        Returns (FObject,
                 match customMessage with
                 | Some (String a rest) => FString (String a rest)
                 | Some EmptyString | None => FObject
                 end)
    end ;;
  let '(errorCode, errorMessage) := derived in
  (* Get base classification *)
  let base :=
    match lookupKey table (propertyKey errorCode) with
    | Some e => e
    | None => defaultEntry
    end in
  (* this.config.fallbackOnErrors, this.config.retryableErrors *)
  cfg <- match config with
         | Some c => Returns c
         | None => Throws
         end ;;
  let shouldFallback :=
    entry_shouldFallback base ||
    match fallbackOnErrors cfg with
    | Some l => includesValue (map ErrorCode_value l) errorCode
    | None => false
    end in
  let retryable :=
    entry_retryable base ||
    match retryableErrors cfg with
    | Some l => includesValue l errorCode
    | None => false
    end in
  Returns {| raw_code := errorCode;
             raw_classification := entry_classification base;
             raw_retryable := retryable;
             raw_shouldFallback := shouldFallback;
             raw_message := errorMessage |}.

(** The three shapes of [ErrorInput] as run-time arguments, and a result over
    the enum as a run-time result. *)
Definition toArgument (x : ErrorInput) : Argument :=
  match x with
  | InError n m => ErrorInstance (PString n) (PString m)
  | InCode c => StringArgument (ErrorCode_value c)
  | InString s => StringArgument s
  end.

Definition toRaw (r : ClassifiedError) : RawClassified :=
  {| raw_code := FString (ErrorCode_value (code r));
     raw_classification := classification r;
     raw_retryable := retryable r;
     raw_shouldFallback := shouldFallback r;
     raw_message := FString (message r) |}.

(** ** Facts about the string primitives *)

Section StringFacts.

Lemma toLowerCaseChar_eqb (a b : ascii) :
  Ascii.eqb a b = true ->
  Ascii.eqb (toLowerCaseChar a) (toLowerCaseChar b) = true.
Proof.
  intro H. apply Ascii.eqb_eq in H. subst b. apply Ascii.eqb_refl.
Qed.

(** Lower-casing both sides keeps a match at position 0. *)
Lemma startsWith_toLowerCase (w s : string) :
  startsWith s w = true ->
  startsWith (toLowerCase s) (toLowerCase w) = true.
Proof.
  revert s. induction w as [|a w IH]; intros s H.
  - reflexivity.
  - destruct s as [|b s]; simpl in H; [discriminate|].
    apply andb_true_iff in H. destruct H as [Hab Hrest].
    simpl. rewrite (toLowerCaseChar_eqb _ _ Hab). simpl.
    now apply IH.
Qed.

(** ... and a match anywhere. *)
Lemma includes_toLowerCase (w s : string) :
  includes s w = true ->
  includes (toLowerCase s) (toLowerCase w) = true.
Proof.
  induction s as [|b s IH]; intro H.
  - destruct w; [reflexivity | discriminate H].
  - change (startsWith (String b s) w || includes s w = true) in H.
    change (startsWith (toLowerCase (String b s)) (toLowerCase w)
            || includes (toLowerCase s) (toLowerCase w) = true).
    apply orb_true_iff in H. apply orb_true_iff.
    destruct H as [H|H].
    + left. now apply startsWith_toLowerCase.
    + right. now apply IH.
Qed.

(** A fragment already in lower case survives the lower-casing of the
    message around it. *)
Lemma includes_lower_fragment (w s : string) :
  toLowerCase w = w ->
  includes s w = true ->
  includes (toLowerCase s) w = true.
Proof.
  intros Hw H. rewrite <- Hw. now apply includes_toLowerCase.
Qed.

(** No lower-cased character is a capital letter. *)
Lemma toLowerCaseChar_not_capital (c a : ascii) :
  toLowerCaseChar c <> c ->
  Ascii.eqb c (toLowerCaseChar a) = false.
Proof.
  intro Hc. apply Ascii.eqb_neq. intro E. apply Hc. subst c.
  destruct a as [[] [] [] [] [] [] [] []]; reflexivity.
Qed.

(** A fragment that starts with a capital letter occurs in no lower-cased
    message. *)
Lemma capital_fragment_never_included (c : ascii) (w s : string) :
  toLowerCaseChar c <> c ->
  includes (toLowerCase s) (String c w) = false.
Proof.
  intro Hc. induction s as [|a s IH].
  - reflexivity.
  - change (Ascii.eqb c (toLowerCaseChar a) && startsWith (toLowerCase s) w
            || includes (toLowerCase s) (String c w) = false).
    now rewrite (toLowerCaseChar_not_capital c a Hc), IH.
Qed.

End StringFacts.

(** ** Facts about codes and the taxonomy *)

Lemma ErrorCode_value_inj (a b : ErrorCode) :
  ErrorCode_value a = ErrorCode_value b -> a = b.
Proof.
  destruct a, b; simpl; intro H; first [reflexivity | discriminate H].
Qed.

Lemma ErrorCode_eqb_eq (a b : ErrorCode) : ErrorCode_eqb a b = true <-> a = b.
Proof.
  unfold ErrorCode_eqb. rewrite String.eqb_eq. split.
  - apply ErrorCode_value_inj.
  - now intros ->.
Qed.

(** The taxonomy has a row for each of the twenty codes. *)
Lemma ERROR_CLASSIFICATIONS_total (c : ErrorCode) :
  exists e, lookup ERROR_CLASSIFICATIONS c = Some e.
Proof.
  destruct c; eexists; reflexivity.
Qed.

(** Which codes survive a pass through [classify]: eight of the twenty. *)
Lemma selfDescribing_codes :
  filter selfDescribing allErrorCodes =
  [ TIMEOUT; CONNECTION_ERROR; PERMISSION_DENIED; QUOTA_EXCEEDED;
    MODEL_OVERLOADED; EMPTY_RESPONSE; SERVICE_UNAVAILABLE; CUSTOM_ERROR ].
Proof. reflexivity. Qed.

(** For a code argument the derived code is read off its upper-case name. *)
Lemma classify_code_of_InCode (cfg : RetryConfig) (c : ErrorCode) (m : option string) :
  code (classify cfg (InCode c) m) = determineErrorCodeFromMessage (ErrorCode_value c).
Proof. reflexivity. Qed.

(** [classify] is [classifyBy] at the ASCII lower-casing. *)
Lemma classify_is_classifyBy (cfg : RetryConfig) (x : ErrorInput) (m : option string) :
  classify cfg x m = classifyBy toLowerCase cfg x m.
Proof. reflexivity. Qed.

(** The two upper-case fragments of [extractErrorCode] are tested against a
    lower-cased message, and so are never found. *)
Lemma upper_case_fragments_never_found (msg : string) :
  includes (toLowerCase msg) "ECONNREFUSED" = false /\
  includes (toLowerCase msg) "ENOTFOUND" = false.
Proof.
  split; apply capital_fragment_never_included; discriminate.
Qed.

(** ** The two defaults of the inference cascades *)

(** Turns [matchesNoneBy lower fragments msg = true] into one equation
    [includes (lower msg) f = false] per fragment. *)
Ltac split_matchesNone H :=
  unfold matchesNone, matchesNoneBy in H;
  cbn [forallb stringFragments errorFragments] in H;
  repeat (let H1 := fresh "Hf" in
          apply andb_true_iff in H; destruct H as [H1 H];
          apply negb_true_iff in H1);
  clear H.

Lemma determineErrorCodeFromMessageBy_default (lower : string -> string)
    (s : string) :
  matchesNoneBy lower stringFragments s = true ->
  determineErrorCodeFromMessageBy lower s = CUSTOM_ERROR.
Proof.
  intro H. split_matchesNone H.
  unfold determineErrorCodeFromMessageBy.
  repeat match goal with E : includes _ _ = false |- _ => rewrite E; clear E end.
  reflexivity.
Qed.

Lemma extractErrorCodeBy_default (lower : string -> string) (name msg : string) :
  matchesNoneBy lower errorFragments msg = true ->
  includes (lower name) "timeout" = false ->
  extractErrorCodeBy lower name msg = UNKNOWN_ERROR.
Proof.
  intros H Hn. split_matchesNone H.
  unfold extractErrorCodeBy. rewrite Hn.
  repeat match goal with E : includes _ _ = false |- _ => rewrite E; clear E end.
  reflexivity.
Qed.

(** ** Properties of [classify] *)

(** C1. Handing [classify] the code [DNS_ERROR] does not give that code back:
    the argument is the string "DNS_ERROR", it goes through
    [determineErrorCodeFromMessage], no fragment occurs in "dns_error", and
    the result carries [CUSTOM_ERROR] with classification [unknown], where the
    taxonomy row of [DNS_ERROR] says [network]. *)
Theorem classify_DNS_ERROR_loses_code (cfg : RetryConfig) (m : option string) :
  code (classify cfg (InCode DNS_ERROR) m) = CUSTOM_ERROR /\
  classification (classify cfg (InCode DNS_ERROR) m) = unknown /\
  lookup ERROR_CLASSIFICATIONS DNS_ERROR = Some (mkEntry network true true).
Proof. repeat split. Qed.

(** C2. With two empty override lists (or none at all),
    [classify(ErrorCode.AUTHENTICATION_ERROR)] finds "authentication" in the
    lower-cased argument, derives [INVALID_API_KEY] and reports
    [shouldFallback = true]. *)
Theorem classify_AUTHENTICATION_ERROR_empty_config (m : option string) :
  classify emptyOverrides (InCode AUTHENTICATION_ERROR) m =
    {| code := INVALID_API_KEY; classification := authentication;
       retryable := false; shouldFallback := true;
       message := "AUTHENTICATION_ERROR" |} /\
  classify noOverrides (InCode AUTHENTICATION_ERROR) m =
    classify emptyOverrides (InCode AUTHENTICATION_ERROR) m.
Proof. split; reflexivity. Qed.

(** C3. Classifying "Request failed: rate limit exceeded" gives [RATE_LIMIT]
    (rate_limit, retryable, fallback); classifying that code again gives
    [CUSTOM_ERROR] (unknown, not retryable, no fallback), under one and the
    same configuration. *)
Theorem reclassify_RATE_LIMIT_differs :
  let r := classify noOverrides (InString "Request failed: rate limit exceeded") None in
  let r' := classify noOverrides (InCode (code r)) None in
  (code r, classification r, retryable r, shouldFallback r)
    = (RATE_LIMIT, rate_limit, true, true) /\
  (code r', classification r', retryable r', shouldFallback r')
    = (CUSTOM_ERROR, unknown, false, false).
Proof. split; reflexivity. Qed.

(** C4. An Error whose message is "ECONNREFUSED" is never classified as
    [CONNECTION_ERROR]: the message is lower-cased before the test for the
    upper-case fragment. With the name "Error" the result is [UNKNOWN_ERROR],
    classification [unknown]. *)
Theorem classify_ECONNREFUSED_not_connection (cfg : RetryConfig) (m : option string) :
  (forall name, code (classify cfg (InError name "ECONNREFUSED") m) <> CONNECTION_ERROR) /\
  code (classify cfg (InError "Error" "ECONNREFUSED") m) = UNKNOWN_ERROR /\
  classification (classify cfg (InError "Error" "ECONNREFUSED") m) = unknown.
Proof.
  split; [|split; reflexivity].
  intro name. unfold classify, classifyWith, classifyValue, classifyValueBy. simpl.
  unfold extractErrorCode, extractErrorCodeBy.
  destruct (includes (toLowerCase name) "timeout") eqn:E; simpl;
    rewrite ?E; simpl; discriminate.
Qed.

(** C5. Overrides only widen: under any configuration the [retryable] and
    [shouldFallback] of the result are at least the values in the taxonomy
    row of the derived code, and the classification and the message are those
    of the row and of a run without overrides. *)
Theorem override_monotone (cfg : RetryConfig) (x : ErrorInput) (m : option string) :
  let r := classify cfg x m in
  let e := baseEntry ERROR_CLASSIFICATIONS (code r) in
  lookup ERROR_CLASSIFICATIONS (code r) = Some e /\
  Bool.le (entry_retryable e) (retryable r) /\
  Bool.le (entry_shouldFallback e) (shouldFallback r) /\
  classification r = entry_classification e /\
  classification r = classification (classify noOverrides x m) /\
  message r = message (classify noOverrides x m).
Proof.
  intros r e. subst r e. unfold classify, classifyWith, classifyValue, classifyValueBy.
  destruct x as [n msg | c | s];
    cbn [runtime code retryable shouldFallback classification message];
    match goal with
    | |- context [baseEntry _ ?k] =>
        destruct (ERROR_CLASSIFICATIONS_total k) as [e He];
        unfold baseEntry; rewrite He
    end;
    repeat split; destruct e as [k [] []]; simpl; trivial.
Qed.

(** C6. First match wins: a message in which both "timeout" and "rate limit"
    occur is given the code [TIMEOUT], as a string and as the message of an
    Error of any name. *)
Theorem timeout_precedence (cfg : RetryConfig) (m : option string)
    (name msg : string) :
  includes msg "timeout" = true ->
  includes msg "rate limit" = true ->
  code (classify cfg (InString msg) m) = TIMEOUT /\
  code (classify cfg (InError name msg) m) = TIMEOUT.
Proof.
  intros Ht _.
  apply (includes_lower_fragment "timeout" msg eq_refl) in Ht.
  unfold classify, classifyWith, classifyValue, classifyValueBy; simpl.
  unfold determineErrorCodeFromMessage, determineErrorCodeFromMessageBy,
    extractErrorCode, extractErrorCodeBy.
  rewrite Ht. split; reflexivity.
Qed.

Lemma timeout_precedence_witness :
  code (classify noOverrides (InString "rate limit wait ended in a timeout") None) = TIMEOUT /\
  code (classify noOverrides (InError "Error" "rate limit wait ended in a timeout") None) = TIMEOUT.
Proof.
  apply (timeout_precedence noOverrides None "Error" "rate limit wait ended in a timeout");
    reflexivity.
Defined.

(** C7, as stated, fails: an Error named "TimeoutError" whose message contains
    none of the fragments is given [TIMEOUT], not [UNKNOWN_ERROR], because the
    first rule also looks at the name. *)
Lemma default_divergence_counterexample :
  ~ (forall cfg name msg m,
       matchesNone errorFragments msg = true ->
       code (classify cfg (InError name msg) m) = UNKNOWN_ERROR).
Proof.
  intro H.
  specialize (H noOverrides "TimeoutError" "some completely novel phrase" None eq_refl).
  discriminate H.
Qed.

(** C7, amended. A string in which no fragment of the string cascade occurs
    is given [CUSTOM_ERROR]; an Error in whose message no fragment of the
    Error cascade occurs, and whose name does not contain "timeout", is given
    [UNKNOWN_ERROR]. Occurrence is in the lower-cased text, as the code tests
    it, whatever [toLowerCase()] does to the text. *)
Theorem default_divergence (lower : string -> string) (cfg : RetryConfig)
    (m : option string) (s name msg : string) :
  matchesNoneBy lower stringFragments s = true ->
  matchesNoneBy lower errorFragments msg = true ->
  includes (lower name) "timeout" = false ->
  code (classifyBy lower cfg (InString s) m) = CUSTOM_ERROR /\
  code (classifyBy lower cfg (InError name msg) m) = UNKNOWN_ERROR.
Proof.
  intros Hs Hm Hn. unfold classifyBy, classifyValueBy; simpl. split.
  - now apply determineErrorCodeFromMessageBy_default.
  - now apply extractErrorCodeBy_default.
Qed.

Lemma default_divergence_witness :
  code (classify noOverrides (InString "some completely novel phrase") None) = CUSTOM_ERROR /\
  code (classify noOverrides (InError "Error" "some completely novel phrase") None) = UNKNOWN_ERROR.
Proof.
  apply (default_divergence toLowerCase noOverrides None
           "some completely novel phrase" "Error" "some completely novel phrase");
    reflexivity.
Defined.

(** On the three shapes of [ErrorInput] the body with exceptions returns, and
    returns what [classifyBy] gives. *)
Lemma classifyRaw_on_ErrorInput (lower : string -> string) (cfg : RetryConfig)
    (x : ErrorInput) (m : option string) :
  classifyRaw lower ERROR_CLASSIFICATIONS (Some cfg) (toArgument x) m
  = Returns (toRaw (classifyBy lower cfg x m)).
Proof.
  assert (K : forall c, lookupKey ERROR_CLASSIFICATIONS (ErrorCode_value c)
                        = lookup ERROR_CLASSIFICATIONS c)
    by (intro c; destruct c; reflexivity).
  assert (F : forall l c,
             existsb (fun k => String.eqb k (ErrorCode_value c)) (map ErrorCode_value l)
             = existsb (fun k => ErrorCode_eqb k c) l).
  { intros l c. induction l as [|k l IH]; [reflexivity|].
    simpl. now rewrite IH. }
  unfold classifyRaw, classifyBy, classifyValueBy, toRaw, baseEntry,
    fallbackOverride, retryOverride.
  destruct x as [n msg | c | s];
    cbn [toArgument runtime bind propertyKey includesValue
         code classification retryable shouldFallback message];
    rewrite K;
    destruct (fallbackOnErrors cfg), (retryableErrors cfg);
    rewrite ?F; reflexivity.
Qed.

(** The body does throw outside the declared types: without a configuration,
    on every argument, and on an Error whose message or name is no string. *)
Lemma classifyRaw_throws_outside_the_types (lower : string -> string)
    (cfg : option RetryConfig) (a : Argument) (p : Property) (m : option string) :
  classifyRaw lower ERROR_CLASSIFICATIONS None a m = Throws /\
  classifyRaw lower ERROR_CLASSIFICATIONS cfg (ErrorInstance p PUndefined) m = Throws /\
  classifyRaw lower ERROR_CLASSIFICATIONS cfg (ErrorInstance PUndefined p) m = Throws.
Proof.
  split; [|split].
  - destruct a as [[n|] [msg|] | s | n msg]; reflexivity.
  - reflexivity.
  - destruct p; reflexivity.
Qed.



(** C9. The configuration has no say in the code, the classification or the
    message: two runs on one argument under any two configurations agree on
    all three. *)
Theorem config_noninterference (cfg1 cfg2 : RetryConfig) (x : ErrorInput)
    (m : option string) :
  code (classify cfg1 x m) = code (classify cfg2 x m) /\
  classification (classify cfg1 x m) = classification (classify cfg2 x m) /\
  message (classify cfg1 x m) = message (classify cfg2 x m).
Proof.
  unfold classify, classifyWith, classifyValue, classifyValueBy.
  destruct x; repeat split.
Qed.

(** C10. For a string argument the returned message is that string, whatever
    [customMessage] is, and for an Error it is the Error's own message; only
    for a value that is neither does a non-empty [customMessage] become the
    message. *)
Theorem customMessage_ignored_for_strings (cfg : RetryConfig) :
  (forall (s : string) (m : option string),
     message (classify cfg (InString s) m) = s) /\
  (forall (name msg : string) (m : option string),
     message (classify cfg (InError name msg) m) = msg) /\
  (forall (c : ErrorCode) (a : ascii) (rest : string),
     message (classifyValue ERROR_CLASSIFICATIONS cfg (OtherCode c)
                (Some (String a rest))) = String a rest).
Proof. repeat split. Qed.

(** ** More on the string primitives *)

Lemma toLowerCaseChar_idem (c : ascii) :
  toLowerCaseChar (toLowerCaseChar c) = toLowerCaseChar c.
Proof. destruct c as [[] [] [] [] [] [] [] []]; reflexivity. Qed.

Lemma toLowerCase_idem (s : string) : toLowerCase (toLowerCase s) = toLowerCase s.
Proof.
  induction s as [|c s IH]; simpl; [reflexivity|].
  now rewrite toLowerCaseChar_idem, IH.
Qed.

Lemma toLowerCase_app (a b : string) :
  toLowerCase (a ++ b) = toLowerCase a ++ toLowerCase b.
Proof.
  induction a as [|c a IH]; simpl; [reflexivity | now rewrite IH].
Qed.

Lemma app_assoc_string (a b c : string) : (a ++ b) ++ c = a ++ (b ++ c).
Proof.
  induction a as [|x a IH]; simpl; [reflexivity | now rewrite IH].
Qed.

Lemma startsWith_app (w post : string) : startsWith (w ++ post) w = true.
Proof.
  induction w as [|a w IH]; simpl; [reflexivity|].
  now rewrite Ascii.eqb_refl, IH.
Qed.

Lemma startsWith_split (w s : string) :
  startsWith s w = true -> exists post, s = w ++ post.
Proof.
  revert s. induction w as [|a w IH]; intros s H.
  - now exists s.
  - destruct s as [|b s]; simpl in H; [discriminate|].
    apply andb_true_iff in H. destruct H as [Hab H].
    apply Ascii.eqb_eq in Hab. subst b.
    destruct (IH s H) as [post ->]. now exists post.
Qed.

Lemma includes_unfold (s w : string) :
  includes s w =
  startsWith s w || match s with EmptyString => false | String _ s' => includes s' w end.
Proof. destruct s; reflexivity. Qed.

(** [includes] is the substring relation. *)
Lemma includes_iff (s w : string) :
  includes s w = true <-> exists pre post, s = pre ++ w ++ post.
Proof.
  split.
  - induction s as [|b s IH]; rewrite includes_unfold; intro H;
      apply orb_true_iff in H; destruct H as [H|H].
    + destruct (startsWith_split _ _ H) as [post E]. exists "", post. exact E.
    + discriminate H.
    + destruct (startsWith_split _ _ H) as [post E]. exists "", post. exact E.
    + destruct (IH H) as (pre & post & ->). now exists (String b pre), post.
  - intros (pre & post & ->).
    induction pre as [|b pre IH]; rewrite includes_unfold; apply orb_true_iff.
    + left. exact (startsWith_app w post).
    + right. exact IH.
Qed.

(** A message that contains a fragment contains every tail of it. *)
Lemma includes_tail (s p w : string) :
  includes s (p ++ w) = true -> includes s w = true.
Proof.
  rewrite !includes_iff. intros (pre & post & ->).
  exists (pre ++ p), post. now rewrite !app_assoc_string.
Qed.

(** ** The cascades as first-match tables *)

(** Walks down a cascade of [if]s, one condition at a time. *)
Ltac walk_cascade tac :=
  repeat (match goal with
          | |- context [if ?b then _ else _] => destruct b eqn:?
          end; [solve [tac] | ]).

Ltac in_list := simpl; repeat (first [left; reflexivity | right]).

Lemma determineErrorCodeFromMessage_in_stringCodes (s : string) :
  In (determineErrorCodeFromMessage s) stringCodes.
Proof.
  unfold determineErrorCodeFromMessage, determineErrorCodeFromMessageBy.
  walk_cascade in_list. in_list.
Qed.

Lemma extractErrorCode_in_errorCodes (name msg : string) :
  In (extractErrorCode name msg) errorCodes.
Proof.
  unfold extractErrorCode, extractErrorCodeBy.
  walk_cascade in_list. in_list.
Qed.

Lemma stringCodes_derivable (c : ErrorCode) :
  In c stringCodes -> In c derivableCodes.
Proof.
  simpl. intro H.
  repeat (destruct H as [<- | H]; [in_list|]). contradiction.
Qed.

Lemma errorCodes_derivable (c : ErrorCode) :
  In c errorCodes -> In c derivableCodes.
Proof.
  simpl. intro H.
  repeat (destruct H as [<- | H]; [in_list|]). contradiction.
Qed.

Lemma classify_code_derivable (cfg : RetryConfig) (x : ErrorInput) (m : option string) :
  In (code (classify cfg x m)) derivableCodes.
Proof.
  destruct x as [n msg | c | s]; cbn.
  - apply errorCodes_derivable, extractErrorCode_in_errorCodes.
  - apply stringCodes_derivable, determineErrorCodeFromMessage_in_stringCodes.
  - apply stringCodes_derivable, determineErrorCodeFromMessage_in_stringCodes.
Qed.

(** ** The shape of every result *)

(** A result of [classify] is the row of a derivable code, widened by the
    overrides of the configuration, next to a message the configuration does
    not touch. *)
Lemma classify_shape (x : ErrorInput) (m : option string) :
  exists c msg,
    In c derivableCodes /\
    forall cfg,
      classify cfg x m =
      {| code := c;
         classification := entry_classification (baseEntry ERROR_CLASSIFICATIONS c);
         retryable := entry_retryable (baseEntry ERROR_CLASSIFICATIONS c)
                      || retryOverride cfg c;
         shouldFallback := entry_shouldFallback (baseEntry ERROR_CLASSIFICATIONS c)
                           || fallbackOverride cfg c;
         message := msg |}.
Proof.
  exists (code (classify noOverrides x m)), (message (classify noOverrides x m)).
  split.
  - apply classify_code_derivable.
  - intro cfg. destruct x; reflexivity.
Qed.

Lemma retryOverride_In (cfg : RetryConfig) (c : ErrorCode) :
  retryOverride cfg c = true <->
  In (ErrorCode_value c) (members (retryableErrors cfg)).
Proof.
  unfold retryOverride, members. destruct (retryableErrors cfg) as [l|].
  - rewrite existsb_exists. split.
    + intros (k & Hin & Hk). apply String.eqb_eq in Hk. now subst k.
    + intro Hin. exists (ErrorCode_value c). split; [exact Hin | apply String.eqb_refl].
  - split; [discriminate | contradiction].
Qed.

Lemma fallbackOverride_In (cfg : RetryConfig) (c : ErrorCode) :
  fallbackOverride cfg c = true <-> In c (members (fallbackOnErrors cfg)).
Proof.
  unfold fallbackOverride, members. destruct (fallbackOnErrors cfg) as [l|].
  - rewrite existsb_exists. split.
    + intros (k & Hin & Hk). apply ErrorCode_eqb_eq in Hk. now subst k.
    + intro Hin. exists c. split; [exact Hin | now apply ErrorCode_eqb_eq].
  - split; [discriminate | contradiction].
Qed.

Lemma bool_eq_iff (a b : bool) : (a = true <-> b = true) -> a = b.
Proof. destruct a, b; intuition congruence. Qed.

(** ** Further properties *)

(** X1. The taxonomy has exactly one row per code: its keys are the twenty
    codes in the order of the enum's families, without repetition, and a
    lookup finds a row exactly when the row is in the table. *)
Theorem ERROR_CLASSIFICATIONS_one_row_per_code :
  List.length ERROR_CLASSIFICATIONS = 20 /\
  NoDup (map fst ERROR_CLASSIFICATIONS) /\
  (forall c, In c (map fst ERROR_CLASSIFICATIONS)) /\
  (forall c e, lookup ERROR_CLASSIFICATIONS c = Some e <-> In (c, e) ERROR_CLASSIFICATIONS).
Proof.
  split; [reflexivity|]. split; [|split].
  - simpl. repeat (constructor; [simpl; intuition discriminate|]). constructor.
  - intro c. destruct c; in_list.
  - intros c e. split.
    + destruct c; simpl; intro H; injection H as <-; in_list.
    + simpl. intro H.
      repeat (destruct H as [H|H]; [injection H as <- <-; reflexivity|]).
      contradiction.
Qed.

(** X2. [determineErrorCodeFromMessage] returns exactly thirteen of the twenty
    codes: each of [stringCodes] for some message, and no other code for any
    message. *)
Theorem determineErrorCodeFromMessage_range (c : ErrorCode) :
  (exists s, determineErrorCodeFromMessage s = c) <-> In c stringCodes.
Proof.
  split.
  - intros [s <-]. apply determineErrorCodeFromMessage_in_stringCodes.
  - intro H. exists (sampleMessage c). simpl in H.
    repeat (destruct H as [<- | H]; [reflexivity|]). contradiction.
Qed.

(** X3. [extractErrorCode] returns exactly thirteen of the twenty codes: the
    twelve of the rules and [UNKNOWN_ERROR], never [CUSTOM_ERROR]. *)
Theorem extractErrorCode_range (c : ErrorCode) :
  (exists name msg, extractErrorCode name msg = c) <-> In c errorCodes.
Proof.
  split.
  - intros (name & msg & <-). apply extractErrorCode_in_errorCodes.
  - intro H. exists "Error", (sampleMessage c). simpl in H.
    repeat (destruct H as [<- | H]; [reflexivity|]). contradiction.
Qed.

(** X4. Whatever the argument and the configuration, the code of a result is
    one of fourteen; [DNS_ERROR], [AUTHENTICATION_ERROR], [PARSE_ERROR],
    [QUALITY_THRESHOLD_NOT_MET], [LATENCY_TOO_HIGH] and [INTERNAL_ERROR] are
    never returned, not even when they are the argument. *)
Theorem classify_code_range (c : ErrorCode) :
  (exists cfg x m, code (classify cfg x m) = c) <->
  ~ In c [ DNS_ERROR; AUTHENTICATION_ERROR; PARSE_ERROR;
           QUALITY_THRESHOLD_NOT_MET; LATENCY_TOO_HIGH; INTERNAL_ERROR ].
Proof.
  split.
  - intros (cfg & x & m & <-).
    pose proof (classify_code_derivable cfg x m) as H.
    revert H. generalize (code (classify cfg x m)). intros c H. simpl in H.
    repeat (destruct H as [<- | H]; [simpl; intuition discriminate|]).
    contradiction.
  - intro H.
    destruct c;
      first
        [ solve [exfalso; apply H; in_list]
        | match goal with
          | |- exists _ _ _, code _ = ?k =>
              exists noOverrides, (InString (sampleMessage k)), None; reflexivity
          end
        | exists noOverrides, (InError "Error" "?"), None; reflexivity ].
Qed.




Lemma classify_agree (cfg1 cfg2 : RetryConfig) :
  (forall c, In c derivableCodes ->
     (In c (members (fallbackOnErrors cfg1)) <->
      In c (members (fallbackOnErrors cfg2))) /\
     (In (ErrorCode_value c) (members (retryableErrors cfg1)) <->
      In (ErrorCode_value c) (members (retryableErrors cfg2)))) ->
  forall x m, classify cfg1 x m = classify cfg2 x m.
Proof.
  intros H x m.
  destruct (classify_shape x m) as (c & msg & Hc & E). rewrite !E.
  destruct (H c Hc) as [Hf Hr].
  f_equal; f_equal; apply bool_eq_iff.
  - now rewrite !retryOverride_In.
  - now rewrite !fallbackOverride_In.
Qed.

(** X7. Only what the two lists say about the fourteen derivable codes
    matters: configurations that agree there, whatever the order, the
    repetitions or the other entries of their lists, give the same result on
    every argument. *)
Theorem configs_agreeing_on_derivable_codes (cfg1 cfg2 : RetryConfig) :
  (forall c, In c derivableCodes ->
     (In c (members (fallbackOnErrors cfg1)) <->
      In c (members (fallbackOnErrors cfg2))) /\
     (In (ErrorCode_value c) (members (retryableErrors cfg1)) <->
      In (ErrorCode_value c) (members (retryableErrors cfg2)))) ->
  forall x m, classify cfg1 x m = classify cfg2 x m.
Proof. exact (classify_agree cfg1 cfg2). Qed.

Lemma configs_agreeing_on_derivable_codes_witness :
  classify (mkRetryConfig (Some [TIMEOUT; PERMISSION_DENIED; TIMEOUT; DNS_ERROR])
                          (Some ["CUSTOM_ERROR"; "my-own-code"]))
           (InString "permission denied for user") None =
  classify (mkRetryConfig (Some [PERMISSION_DENIED; TIMEOUT])
                          (Some ["CUSTOM_ERROR"]))
           (InString "permission denied for user") None.
Proof.
  apply configs_agreeing_on_derivable_codes.
  intros c Hc. simpl in Hc.
  repeat (destruct Hc as [<- | Hc];
          [split; simpl; split; intuition (discriminate || auto)|]).
  contradiction.
Defined.

(** X8. An override that names only codes no argument is ever given, or
    strings that are the name of no code, changes nothing: the classifier
    behaves as without any override. *)
Theorem underivable_overrides_are_inert (fl : list ErrorCode) (rl : list string) :
  (forall c, In c fl -> ~ In c derivableCodes) ->
  (forall k, In k rl -> ~ In k (map ErrorCode_value derivableCodes)) ->
  forall x m,
    classify (mkRetryConfig (Some fl) (Some rl)) x m = classify noOverrides x m.
Proof.
  intros Hf Hr. apply classify_agree.
  intros c Hc. simpl members. split; split; try contradiction.
  - intro H. exact (Hf c H Hc).
  - intro H. apply (Hr _ H). now apply in_map.
Qed.

Lemma underivable_overrides_are_inert_witness :
  classify (mkRetryConfig (Some [AUTHENTICATION_ERROR; INTERNAL_ERROR])
                          (Some ["AUTHENTICATION_ERROR"; "DNS_ERROR"; "MY_CUSTOM_CODE"]))
           (InCode AUTHENTICATION_ERROR) None
  = classify noOverrides (InCode AUTHENTICATION_ERROR) None.
Proof.
  apply underivable_overrides_are_inert.
  - intros c H. simpl in H. simpl.
    repeat (destruct H as [<- | H]; [intuition discriminate|]). contradiction.
  - intros k H. simpl in H. simpl.
    repeat (destruct H as [<- | H]; [intuition discriminate|]). contradiction.
Defined.

(** X9. [DEFAULT_RETRY_CONFIG] widens nothing: each of its six fallback codes
    already has [shouldFallback] in its row, so every argument is classified
    as without overrides. *)
Theorem DEFAULT_RETRY_CONFIG_adds_nothing (x : ErrorInput) (m : option string) :
  classify DEFAULT_RETRY_CONFIG x m = classify noOverrides x m.
Proof.
  destruct (classify_shape x m) as (c & msg & Hc & E). rewrite !E.
  simpl in Hc.
  repeat (destruct Hc as [<- | Hc]; [reflexivity|]). contradiction.
Qed.

(** X10. For a code argument [customMessage] is ignored: the result is the
    same with and without it, and the message is the code's own name. *)
Theorem customMessage_never_read (cfg : RetryConfig) (c : ErrorCode)
    (m : option string) :
  classify cfg (InCode c) m = classify cfg (InCode c) None /\
  message (classify cfg (InCode c) m) = ErrorCode_value c.
Proof. split; reflexivity. Qed.

Lemma determineErrorCodeFromMessage_lower (s : string) :
  determineErrorCodeFromMessageBy toLowerCase (toLowerCase s)
  = determineErrorCodeFromMessageBy toLowerCase s.
Proof.
  unfold determineErrorCodeFromMessageBy. now rewrite toLowerCase_idem.
Qed.

Lemma extractErrorCode_lower (name msg : string) :
  extractErrorCodeBy toLowerCase (toLowerCase name) (toLowerCase msg)
  = extractErrorCodeBy toLowerCase name msg.
Proof.
  unfold extractErrorCodeBy. now rewrite !toLowerCase_idem.
Qed.

(** X11. For ASCII text letter case is irrelevant to the verdict: lower-casing
    a string argument, or the name and message of an Error, changes neither
    the code nor the classification nor the two flags. *)
Theorem classify_ignores_letter_case (cfg : RetryConfig) (m : option string)
    (s name msg : string) :
  isAscii s = true ->
  isAscii name = true ->
  isAscii msg = true ->
  let verdict r := (code r, classification r, retryable r, shouldFallback r) in
  verdict (classify cfg (InString (toLowerCase s)) m)
    = verdict (classify cfg (InString s) m) /\
  verdict (classify cfg (InError (toLowerCase name) (toLowerCase msg)) m)
    = verdict (classify cfg (InError name msg) m).
Proof.
  intros _ _ _.
  unfold classify, classifyWith, classifyValue, classifyValueBy.
  cbn [runtime code classification retryable shouldFallback].
  now rewrite determineErrorCodeFromMessage_lower, extractErrorCode_lower.
Qed.

Lemma classify_ignores_letter_case_witness :
  let verdict r := (code r, classification r, retryable r, shouldFallback r) in
  verdict (classify noOverrides (InString (toLowerCase "Model OVERLOADED, try later")) None)
    = verdict (classify noOverrides (InString "Model OVERLOADED, try later") None) /\
  verdict (classify noOverrides
             (InError (toLowerCase "HttpError") (toLowerCase "403 Forbidden")) None)
    = verdict (classify noOverrides (InError "HttpError" "403 Forbidden") None).
Proof.
  apply (classify_ignores_letter_case noOverrides None
           "Model OVERLOADED, try later" "HttpError" "403 Forbidden");
    reflexivity.
Defined.

Ltac split_orb_false :=
  repeat match goal with
         | H : _ || _ = false |- _ =>
             apply orb_false_iff in H; destruct H
         end.

Ltac rewrite_absent :=
  repeat match goal with
         | E : includes _ _ = false |- _ => rewrite E; clear E
         end.

Lemma determineErrorCodeFromMessageBy_default_inv (lower : string -> string)
    (s : string) :
  determineErrorCodeFromMessageBy lower s = CUSTOM_ERROR ->
  matchesNoneBy lower stringFragments s = true.
Proof.
  unfold determineErrorCodeFromMessageBy.
  walk_cascade ltac:(intro; discriminate).
  intros _. split_orb_false. unfold matchesNoneBy. cbn [forallb stringFragments].
  rewrite_absent. reflexivity.
Qed.

Lemma extractErrorCodeBy_default_inv (lower : string -> string)
    (name msg : string) :
  extractErrorCodeBy lower name msg = UNKNOWN_ERROR ->
  matchesNoneBy lower errorFragments msg = true /\
  includes (lower name) "timeout" = false.
Proof.
  unfold extractErrorCodeBy.
  walk_cascade ltac:(intro; discriminate).
  intros _. split_orb_false. split; [|assumption].
  unfold matchesNoneBy. cbn [forallb errorFragments].
  rewrite_absent. reflexivity.
Qed.

(** X12. The default of each cascade is returned exactly when nothing
    matches: [CUSTOM_ERROR] for a string iff none of the thirteen fragments
    occurs in the lower-cased message, [UNKNOWN_ERROR] for an Error iff none
    of the thirty-two occurs in the lower-cased message and "timeout" does
    not occur in the lower-cased name; whatever [toLowerCase()] does to the
    text. *)
Theorem defaults_exactly_when_nothing_matches (lower : string -> string)
    (s name msg : string) :
  (determineErrorCodeFromMessageBy lower s = CUSTOM_ERROR <->
     matchesNoneBy lower stringFragments s = true) /\
  (extractErrorCodeBy lower name msg = UNKNOWN_ERROR <->
     matchesNoneBy lower errorFragments msg = true /\
     includes (lower name) "timeout" = false).
Proof.
  split; split.
  - apply determineErrorCodeFromMessageBy_default_inv.
  - apply determineErrorCodeFromMessageBy_default.
  - apply extractErrorCodeBy_default_inv.
  - intros [H1 H2]. now apply extractErrorCodeBy_default.
Qed.

(** X13. An Error that falls through to [UNKNOWN_ERROR] carries a message
    that, classified as a string, falls through to [CUSTOM_ERROR]: the
    fragments of the string cascade are among those of the Error cascade. *)
Theorem unknown_error_message_is_custom (cfg : RetryConfig) (m : option string)
    (name msg : string) :
  code (classify cfg (InError name msg) m) = UNKNOWN_ERROR ->
  code (classify cfg (InString msg) m) = CUSTOM_ERROR.
Proof.
  change (extractErrorCodeBy toLowerCase name msg = UNKNOWN_ERROR ->
          determineErrorCodeFromMessageBy toLowerCase msg = CUSTOM_ERROR).
  intro H. apply extractErrorCodeBy_default_inv in H.
  destruct H as [H _].
  apply determineErrorCodeFromMessageBy_default.
  split_matchesNone H.
  unfold matchesNoneBy. cbn [forallb stringFragments].
  rewrite_absent. reflexivity.
Qed.

Lemma unknown_error_message_is_custom_witness :
  code (classify noOverrides (InString "disk full") None) = CUSTOM_ERROR.
Proof.
  apply (unknown_error_message_is_custom noOverrides None "Error" "disk full").
  reflexivity.
Defined.

(** ** The cascades are first-match tables *)

Lemma determineErrorCodeFromMessageBy_firstMatch (lower : string -> string)
    (s : string) :
  determineErrorCodeFromMessageBy lower s =
  firstMatch stringRules CUSTOM_ERROR (lower s).
Proof.
  unfold determineErrorCodeFromMessageBy.
  cbn [firstMatch stringRules existsb].
  rewrite !orb_false_r. reflexivity.
Qed.

Lemma extractErrorCodeBy_firstMatch (lower : string -> string)
    (name msg : string) :
  extractErrorCodeBy lower name msg =
  if includes (lower name) "timeout" then TIMEOUT
  else firstMatch errorRules UNKNOWN_ERROR (lower msg).
Proof.
  unfold extractErrorCodeBy.
  cbn [firstMatch errorRules existsb].
  rewrite !orb_false_r, !orb_assoc.
  destruct (includes (lower name) "timeout");
    destruct (includes (lower msg) "timeout"); reflexivity.
Qed.

Section FirstMatch.

Variable default : ErrorCode.
Variable lower : string.

(** The first rule that fires decides. *)
Lemma firstMatch_first (before after : list Rule) (fragments : list string)
    (c : ErrorCode) :
  (forall r, In r before -> existsb (includes lower) (fst r) = false) ->
  existsb (includes lower) fragments = true ->
  firstMatch (before ++ (fragments, c) :: after) default lower = c.
Proof.
  intros Hb Hf. induction before as [|[fr k] before IH]; simpl.
  - now rewrite Hf.
  - pose proof (Hb (fr, k) (or_introl eq_refl)) as H0. simpl in H0.
    rewrite H0. apply IH. intros r Hr. apply Hb. now right.
Qed.

(** A code is returned because one of its rules fired, or by default. *)
Lemma firstMatch_sound (rules : list Rule) :
  (exists fragments f,
      In (fragments, firstMatch rules default lower) rules /\
      In f fragments /\ includes lower f = true) \/
  (firstMatch rules default lower = default /\
   forall r, In r rules -> existsb (includes lower) (fst r) = false).
Proof.
  induction rules as [|[fr k] rules IH]; simpl.
  - right. split; [reflexivity | contradiction].
  - destruct (existsb (includes lower) fr) eqn:E.
    + left. apply existsb_exists in E. destruct E as (f & Hin & Hf).
      exists fr, f. auto.
    + destruct IH as [(fr' & f & Hin & Hf & Hi) | [Hd Hn]].
      * left. exists fr', f. auto.
      * right. split; [exact Hd|].
        intros r [<- | Hr]; [exact E | now apply Hn].
Qed.

End FirstMatch.

(** X15. Precedence in the string cascade: when a rule fires on the
    lower-cased message and no rule before it does, the string gets that
    rule's code, whatever fires later and whatever [toLowerCase()] does to
    the text. *)
Theorem string_cascade_precedence (lower : string -> string)
    (before after : list Rule) (fragments : list string) (c : ErrorCode)
    (s : string) :
  stringRules = (before ++ (fragments, c) :: after)%list ->
  (forall r, In r before -> ruleFiresBy lower r s = false) ->
  ruleFiresBy lower (fragments, c) s = true ->
  determineErrorCodeFromMessageBy lower s = c.
Proof.
  intros E Hb Hf.
  rewrite determineErrorCodeFromMessageBy_firstMatch, E.
  now apply firstMatch_first.
Qed.

Lemma string_cascade_precedence_witness :
  determineErrorCodeFromMessage "Quota hit: connection unavailable" = QUOTA_EXCEEDED.
Proof.
  apply (string_cascade_precedence toLowerCase
           [ (["timeout"], TIMEOUT);
             (["rate limit"], RATE_LIMIT);
             (["authentication"; "api key"], INVALID_API_KEY) ]
           (skipn 4 stringRules)
           ["quota"] QUOTA_EXCEEDED).
  - reflexivity.
  - intros r H. simpl in H.
    repeat (destruct H as [<- | H]; [reflexivity|]). contradiction.
  - reflexivity.
Defined.

(** X16. Precedence in the Error cascade: for an Error whose lower-cased name
    does not contain "timeout", when a rule fires on the lower-cased message
    and no rule before it does, the Error gets that rule's code, whatever
    [toLowerCase()] does to the text. *)
Theorem error_cascade_precedence (lower : string -> string)
    (before after : list Rule) (fragments : list string) (c : ErrorCode)
    (name msg : string) :
  errorRules = (before ++ (fragments, c) :: after)%list ->
  includes (lower name) "timeout" = false ->
  (forall r, In r before -> ruleFiresBy lower r msg = false) ->
  ruleFiresBy lower (fragments, c) msg = true ->
  extractErrorCodeBy lower name msg = c.
Proof.
  intros E Hn Hb Hf.
  rewrite extractErrorCodeBy_firstMatch, Hn, E.
  now apply firstMatch_first.
Qed.

Lemma error_cascade_precedence_witness :
  extractErrorCode "Error" "Context length exceeded: max tokens is 4096" = QUOTA_EXCEEDED.
Proof.
  apply (error_cascade_precedence toLowerCase
           (firstn 3 errorRules) (skipn 4 errorRules)
           ["quota"; "exceeded"; "insufficient credits"] QUOTA_EXCEEDED).
  - reflexivity.
  - reflexivity.
  - intros r H. simpl in H.
    repeat (destruct H as [<- | H]; [reflexivity|]). contradiction.
  - reflexivity.
Defined.

(** X17. No code without evidence: a code other than the default is returned
    only when a fragment of one of its own rules occurs in the lower-cased
    message (for [TIMEOUT] from an Error, in the message or the name),
    whatever [toLowerCase()] does to the text. *)
Theorem inferred_code_has_a_fragment (lower : string -> string)
    (s name msg : string) :
  (determineErrorCodeFromMessageBy lower s <> CUSTOM_ERROR ->
   exists fragments f,
     In (fragments, determineErrorCodeFromMessageBy lower s) stringRules /\
     In f fragments /\ includes (lower s) f = true) /\
  (extractErrorCodeBy lower name msg <> UNKNOWN_ERROR ->
   (extractErrorCodeBy lower name msg = TIMEOUT /\
    includes (lower name) "timeout" = true) \/
   exists fragments f,
     In (fragments, extractErrorCodeBy lower name msg) errorRules /\
     In f fragments /\ includes (lower msg) f = true).
Proof.
  split.
  - rewrite determineErrorCodeFromMessageBy_firstMatch. intro H.
    destruct (firstMatch_sound CUSTOM_ERROR (lower s) stringRules)
      as [Hex | [Hd _]]; [exact Hex | contradiction].
  - rewrite extractErrorCodeBy_firstMatch.
    destruct (includes (lower name) "timeout") eqn:En; intro H.
    + left. split; reflexivity.
    + right.
      destruct (firstMatch_sound UNKNOWN_ERROR (lower msg) errorRules)
        as [Hex | [Hd _]]; [exact Hex | contradiction].
Qed.

Lemma inferred_code_has_a_fragment_witness :
  (exists fragments f,
     In (fragments, determineErrorCodeFromMessage "Too Many Requests: Rate Limit") stringRules /\
     In f fragments /\
     includes (toLowerCase "Too Many Requests: Rate Limit") f = true) /\
  ((extractErrorCode "Error" "Too Many Requests" = TIMEOUT /\
    includes (toLowerCase "Error") "timeout" = true) \/
   exists fragments f,
     In (fragments, extractErrorCode "Error" "Too Many Requests") errorRules /\
     In f fragments /\ includes (toLowerCase "Too Many Requests") f = true).
Proof.
  destruct (inferred_code_has_a_fragment toLowerCase
              "Too Many Requests: Rate Limit"
              "Error" "Too Many Requests") as [H1 H2].
  split; [apply H1 | apply H2]; discriminate.
Defined.

Lemma no_capital_no_capital_fragment (t : string) (c : ascii) (w : string) :
  ((65 <=? nat_of_ascii c)%nat && (nat_of_ascii c <=? 90)%nat) = true ->
  hasCapital t = false ->
  includes t (String c w) = false.
Proof.
  intros Hc. induction t as [|a t IH]; intro Ht.
  - reflexivity.
  - cbn [hasCapital] in Ht. apply orb_false_iff in Ht. destruct Ht as [Ha Ht].
    rewrite includes_unfold. cbn [startsWith].
    rewrite (IH Ht), orb_false_r.
    destruct (Ascii.eqb c a) eqn:E; [|reflexivity].
    apply Ascii.eqb_eq in E. subst a. congruence.
Qed.

Lemma toLowerCase_no_capital (t : string) : hasCapital (toLowerCase t) = false.
Proof.
  induction t as [|a t IH]; [reflexivity|].
  cbn [toLowerCase hasCapital]. rewrite IH, orb_false_r.
  destruct a as [[] [] [] [] [] [] [] []]; reflexivity.
Qed.

(** X18. Five of the thirty-two fragments of [extractErrorCode] decide
    nothing. "ECONNREFUSED" and "ENOTFOUND" cannot occur in a lower-cased
    message, which has no letter 'A'..'Z'; "invalid api key",
    "model overloaded" and "service unavailable" each contain another
    fragment of their own rule. Without the five the function is the same. *)
Theorem five_fragments_decide_nothing (lower : string -> string)
    (name msg : string) :
  (forall t, hasCapital (lower t) = false) ->
  extractErrorCodeBy lower name msg =
  if includes (lower name) "timeout" then TIMEOUT
  else firstMatch effectiveErrorRules UNKNOWN_ERROR (lower msg).
Proof.
  intro Hcap.
  rewrite extractErrorCodeBy_firstMatch.
  destruct (includes (lower name) "timeout"); [reflexivity|].
  cbn [firstMatch errorRules effectiveErrorRules existsb].
  set (L := lower msg).
  assert (U1 : includes L "ECONNREFUSED" = false)
    by (apply no_capital_no_capital_fragment; [reflexivity | apply Hcap]).
  assert (U2 : includes L "ENOTFOUND" = false)
    by (apply no_capital_no_capital_fragment; [reflexivity | apply Hcap]).
  rewrite U1, U2.
  assert (A1 : includes L "invalid api key" || (includes L "api key" || false)
               = includes L "api key" || false).
  { destruct (includes L "invalid api key") eqn:E; [|reflexivity].
    now rewrite (includes_tail L "invalid " "api key" E). }
  assert (A2 : includes L "overloaded" || (includes L "model overloaded" || false)
               = includes L "overloaded" || false).
  { destruct (includes L "model overloaded") eqn:E.
    - now rewrite (includes_tail L "model " "overloaded" E).
    - reflexivity. }
  assert (A3 : includes L "service unavailable" || (includes L "unavailable" || false)
               = includes L "unavailable" || false).
  { destruct (includes L "service unavailable") eqn:E; [|reflexivity].
    now rewrite (includes_tail L "service " "unavailable" E). }
  rewrite A1, A2, A3. reflexivity.
Qed.

Lemma five_fragments_decide_nothing_witness :
  extractErrorCode "Error" "connect ECONNREFUSED 127.0.0.1:443" =
  if includes (toLowerCase "Error") "timeout" then TIMEOUT
  else firstMatch effectiveErrorRules UNKNOWN_ERROR
         (toLowerCase "connect ECONNREFUSED 127.0.0.1:443").
Proof.
  apply (five_fragments_decide_nothing toLowerCase "Error"
           "connect ECONNREFUSED 127.0.0.1:443").
  exact toLowerCase_no_capital.
Defined.

Lemma includes_any_case (pre w post fragment : string) :
  toLowerCase w = fragment ->
  includes (toLowerCase (pre ++ w ++ post)) fragment = true.
Proof.
  intros <-. rewrite !toLowerCase_app. apply includes_iff.
  now exists (toLowerCase pre), (toLowerCase post).
Qed.

(** X19. A mention of "timeout" in any letter case, anywhere in a string, in
    the message of an Error or in its name, makes the result a [TIMEOUT]:
    classification [timeout], retryable, eligible for fallback, under every
    configuration. *)
Theorem timeout_in_any_case (cfg : RetryConfig) (m : option string)
    (pre w post other : string) :
  toLowerCase w = "timeout" ->
  let verdict r := (code r, classification r, retryable r, shouldFallback r) in
  let text := pre ++ w ++ post in
  verdict (classify cfg (InString text) m) = (TIMEOUT, timeout, true, true) /\
  verdict (classify cfg (InError other text) m) = (TIMEOUT, timeout, true, true) /\
  verdict (classify cfg (InError text other) m) = (TIMEOUT, timeout, true, true).
Proof.
  intros Hw verdict text.
  pose proof (includes_any_case pre w post "timeout" Hw) as H. fold text in H.
  subst verdict. unfold classify, classifyWith, classifyValue, classifyValueBy.
  cbn [runtime code classification retryable shouldFallback].
  unfold determineErrorCodeFromMessage, determineErrorCodeFromMessageBy,
    extractErrorCode, extractErrorCodeBy.
  rewrite H, orb_true_r. repeat split.
Qed.

Lemma timeout_in_any_case_witness :
  let verdict r := (code r, classification r, retryable r, shouldFallback r) in
  let text := "Gateway " ++ "TimeOut" ++ " (504)" in
  verdict (classify noOverrides (InString text) None) = (TIMEOUT, timeout, true, true) /\
  verdict (classify noOverrides (InError "Error" text) None) = (TIMEOUT, timeout, true, true) /\
  verdict (classify noOverrides (InError text "Error") None) = (TIMEOUT, timeout, true, true).
Proof.
  apply (timeout_in_any_case noOverrides None "Gateway " "TimeOut" " (504)" "Error").
  reflexivity.
Defined.

(** X21. A code handed to [classify] comes back as the code of the result
    exactly for eight of the twenty codes. *)
Theorem code_argument_kept_iff (cfg : RetryConfig) (c : ErrorCode)
    (m : option string) :
  code (classify cfg (InCode c) m) = c <->
  In c [ TIMEOUT; CONNECTION_ERROR; PERMISSION_DENIED; QUOTA_EXCEEDED;
         MODEL_OVERLOADED; EMPTY_RESPONSE; SERVICE_UNAVAILABLE; CUSTOM_ERROR ].
Proof.
  rewrite classify_code_of_InCode. split.
  - destruct c; simpl; intro H; first [discriminate H | in_list].
  - simpl. intro H.
    repeat (destruct H as [<- | H]; [reflexivity|]). contradiction.
Qed.


(** X23. Classifying by the derived code settles after one round: the result
    for the code of [classify(classify(x).code)] has the same code,
    classification and flags as [classify(classify(x).code)] itself. *)
Theorem reclassification_settles (cfg : RetryConfig) (x : ErrorInput)
    (m : option string) :
  let verdict r := (code r, classification r, retryable r, shouldFallback r) in
  let r1 := classify cfg x m in
  let r2 := classify cfg (InCode (code r1)) None in
  let r3 := classify cfg (InCode (code r2)) None in
  verdict r3 = verdict r2.
Proof.
  cbv zeta.
  pose proof (classify_code_derivable cfg x m) as Hc.
  revert Hc. generalize (code (classify cfg x m)). intros c Hc.
  simpl in Hc.
  repeat (destruct Hc as [<- | Hc]; [reflexivity|]). contradiction.
Qed.

(** X24. Widening the lists never withdraws a verdict: when every entry of
    the two lists of one configuration is also in those of another, each flag
    of a result under the first is at most the flag under the second, and the
    rest of the result is the same. *)
Theorem more_overrides_never_narrow (cfg1 cfg2 : RetryConfig) (x : ErrorInput)
    (m : option string) :
  incl (members (fallbackOnErrors cfg1)) (members (fallbackOnErrors cfg2)) ->
  incl (members (retryableErrors cfg1)) (members (retryableErrors cfg2)) ->
  Bool.le (retryable (classify cfg1 x m)) (retryable (classify cfg2 x m)) /\
  Bool.le (shouldFallback (classify cfg1 x m)) (shouldFallback (classify cfg2 x m)) /\
  code (classify cfg1 x m) = code (classify cfg2 x m) /\
  classification (classify cfg1 x m) = classification (classify cfg2 x m) /\
  message (classify cfg1 x m) = message (classify cfg2 x m).
Proof.
  intros Hf Hr.
  destruct (classify_shape x m) as (c & msg & _ & E). rewrite !E.
  cbn [code classification retryable shouldFallback message].
  assert (Lr : retryOverride cfg1 c = true -> retryOverride cfg2 c = true).
  { rewrite !retryOverride_In. apply Hr. }
  assert (Lf : fallbackOverride cfg1 c = true -> fallbackOverride cfg2 c = true).
  { rewrite !fallbackOverride_In. apply Hf. }
  repeat split.
  - destruct (entry_retryable (baseEntry ERROR_CLASSIFICATIONS c)); simpl;
      [reflexivity|].
    destruct (retryOverride cfg1 c); simpl; [now apply Lr | exact I].
  - destruct (entry_shouldFallback (baseEntry ERROR_CLASSIFICATIONS c)); simpl;
      [reflexivity|].
    destruct (fallbackOverride cfg1 c); simpl; [now apply Lf | exact I].
Qed.

Lemma more_overrides_never_narrow_witness :
  let cfg1 := mkRetryConfig None (Some ["PERMISSION_DENIED"]) in
  let cfg2 := mkRetryConfig (Some [CUSTOM_ERROR])
                            (Some ["CUSTOM_ERROR"; "PERMISSION_DENIED"]) in
  let x := InString "filesystem is read-only" in
  Bool.le (retryable (classify cfg1 x None)) (retryable (classify cfg2 x None)) /\
  Bool.le (shouldFallback (classify cfg1 x None)) (shouldFallback (classify cfg2 x None)) /\
  code (classify cfg1 x None) = code (classify cfg2 x None) /\
  classification (classify cfg1 x None) = classification (classify cfg2 x None) /\
  message (classify cfg1 x None) = message (classify cfg2 x None).
Proof.
  apply (more_overrides_never_narrow
           (mkRetryConfig None (Some ["PERMISSION_DENIED"]))
           (mkRetryConfig (Some [CUSTOM_ERROR])
                          (Some ["CUSTOM_ERROR"; "PERMISSION_DENIED"]))
           (InString "filesystem is read-only") None).
  - intros c H. contradiction.
  - intros k H. simpl in H. destruct H as [<- | H]; [|contradiction].
    simpl. auto.
Defined.

(** X25. An override is local to its code: listing the code [k] in both
    lists makes every result whose code is [k] retryable and eligible for
    fallback, leaves its code, classification and message alone, and leaves
    every result with another code exactly as it was. *)
Theorem override_is_local (cfg : RetryConfig) (k : ErrorCode) (x : ErrorInput)
    (m : option string) :
  let cfg' := mkRetryConfig
                (Some (k :: members (fallbackOnErrors cfg)))
                (Some (ErrorCode_value k :: members (retryableErrors cfg))) in
  let r := classify cfg x m in
  let r' := classify cfg' x m in
  if ErrorCode_eqb (code r) k
  then retryable r' = true /\ shouldFallback r' = true /\
       code r' = code r /\ classification r' = classification r /\
       message r' = message r
  else r' = r.
Proof.
  cbv zeta.
  destruct (classify_shape x m) as (c & msg & _ & E). rewrite !E.
  cbn [code classification retryable shouldFallback message].
  destruct (ErrorCode_eqb c k) eqn:Ek.
  - apply ErrorCode_eqb_eq in Ek. subst k.
    assert (Hr : retryOverride
                   (mkRetryConfig (Some (c :: members (fallbackOnErrors cfg)))
                      (Some (ErrorCode_value c :: members (retryableErrors cfg)))) c
                 = true).
    { apply retryOverride_In. now left. }
    assert (Hf : fallbackOverride
                   (mkRetryConfig (Some (c :: members (fallbackOnErrors cfg)))
                      (Some (ErrorCode_value c :: members (retryableErrors cfg)))) c
                 = true).
    { apply fallbackOverride_In. now left. }
    rewrite Hr, Hf, !orb_true_r. repeat split.
  - assert (Hk : k <> c).
    { intro Hk. subst k.
      assert (ErrorCode_eqb c c = true) by now apply ErrorCode_eqb_eq.
      congruence. }
    f_equal; f_equal; apply bool_eq_iff.
    + rewrite !retryOverride_In. simpl. split.
      * intros [H | H]; [|exact H].
        apply ErrorCode_value_inj in H. contradiction.
      * now right.
    + rewrite !fallbackOverride_In. simpl. split.
      * intros [H | H]; [contradiction | exact H].
      * now right.
Qed.
